(** * PAC therapy model: susceptible and antibiotic-resistant bacteria

    Shallow embedding of
    [v_pac_therapy_in_a_system_with_susceptible_and_antibiotic_resistant_bacteria.py]:
    the two infusion schedules, the two fraction functions, the right-hand
    side of the ODE system and the script-level integration driver.

    Numbers.  The script computes with Python floats.  They are idealised
    here as exact rationals ([Q]); equality of computed values is [Qeq]
    (written [==]).  What is kept of Python's arithmetic is its control
    behaviour on floats: the true division [x / y] raises
    [ZeroDivisionError] when [y] is zero, and unpacking a sequence of the
    wrong length raises [ValueError].  Rounding, overflow to an infinity
    and [nan] are outside the model, and so are integers beyond the float
    range (whose conversion or division raises [OverflowError]); the
    integers of the script itself ([0], [1], [106]) behave as floats. *)

From Stdlib Require Import QArith Qround Qpower Qfield Lqa ZArith Lia List Bool.
Import ListNotations.

Local Open Scope Q_scope.

(** ** Python results *)

Module Py.

Inductive exn : Type :=
| ZeroDivisionError
| ValueError.

Inductive outcome (A : Type) : Type :=
| Ok (a : A)
| Raise (e : exn).

Arguments Ok {A} a.
Arguments Raise {A} e.

Definition bind {A B : Type} (m : outcome A) (k : A -> outcome B) : outcome B :=
  match m with
  | Ok a => k a
  | Raise e => Raise e
  end.

(** [x / y] on floats. *)
Definition truediv (x y : Q) : outcome Q :=
  if Qeq_bool y 0 then Raise ZeroDivisionError else Ok (x / y).

(** [x < y] as a test. *)
Definition ltb (x y : Q) : bool := negb (Qle_bool y x).

(** [x <= y] as a test. *)
Definition leb (x y : Q) : bool := Qle_bool x y.

(** [a, b, c, d = y] followed by the rest of the body. *)
Definition unpack4 {A B : Type} (y : list A)
    (k : A -> A -> A -> A -> outcome B) : outcome B :=
  match y with
  | [a; b; c; d] => k a b c d
  | _ => Raise ValueError
  end.

End Py.

Import Py.

Declare Scope py_scope.
Delimit Scope py_scope with py.
Notation "x <- m ;; k" := (Py.bind m (fun x => k))
  (at level 61, m at next level, right associativity) : py_scope.
Notation "x // y" := (Py.truediv x y)
  (at level 40, left associativity) : py_scope.
Local Open Scope py_scope.

(** ** Infusion schedules *)

(** The loop shared by both schedules:
    [for t_n in injection_times:
         if t_n <= t < (t_n + infusion_duration): return dose]
    followed by [return 0]. *)
Fixpoint infusion_loop (injection_times : list Q) (dose infusion_duration t : Q)
  : Q :=
  match injection_times with
  | [] => 0
  | t_n :: rest =>
      if Py.leb t_n t && Py.ltb t (t_n + infusion_duration)
      then dose
      else infusion_loop rest dose infusion_duration t
  end.

Definition antibiotic_input (t : Q) : Q :=
  let injection_times := [100] in
  let dose := 661 # 100 in
  let infusion_duration := 1 in
  infusion_loop injection_times dose infusion_duration t.

Definition phage_input (t : Q) : Q :=
  let injection_times := [0] in
  let dose := 0 in
  let infusion_duration := 1 in
  infusion_loop injection_times dose infusion_duration t.

(** ** Fraction functions

    In both functions the quotient is computed on the line before the
    conditional expression that tests [total > 0]. *)

Definition alpha (A S : Q) : outcome Q :=
  let total := A + S in
  alpha <- A // total ;;
  Ok (if Py.ltb 0 total then alpha else 0).

Definition sigma (A S : Q) : outcome Q :=
  let total := A + S in
  sigma <- S // total ;;
  Ok (if Py.ltb 0 total then sigma else 0).

(** ** The ODE right-hand side

    Every name in the body is a parameter or a local of [model]; the
    parameters [γ] ... [b] shadow the module-level variables of the same
    names, and the local [Ca] shadows the module-level [Ca].  The floor
    logic on [S], [P] and [C] is commented out in the source and has no
    counterpart here. *)

Definition model (t : Q) (y : list Q) (γ e ka rS K mA mS rA i d b : Q)
  : outcome (list Q) :=
  Py.unpack4 y (fun Ca S A P =>
    σ <- sigma A S ;;
    α <- alpha A S ;;
    let dCa_dt := - γ * Ca + antibiotic_input t in
    qS <- (S + A) // K ;;
    let dS_dt := rS * S * (1 - qS) - (e * Ca * ka) - (i * S * σ * P)
                 - (mA * S) + (mS * A) in
    qA <- (S + A) // K ;;
    let dA_dt := rA * A * (1 - qA) - (i * A * α * P) + (mA * S) - (mS * A) in
    let dP_dt := b * i * P * (σ * S + α * A) - (d * P) + phage_input t in
    Ok [dCa_dt; dS_dt; dA_dt; dP_dt]).


(** ** NumPy

    [solve_ivp] hands the state to [model] as a NumPy array, so inside an
    integration the components are [numpy.float64] scalars.  Their true
    division does not raise: a zero divisor gives [nan] or an infinity
    (with a [RuntimeWarning]).  The fraction functions are embedded a second
    time under that reading, next to [linspace].  The arguments are finite
    values; what the functions do with an infinite or [nan] argument is not
    modelled. *)

Module NumPy.

Inductive float64 : Type :=
| Finite (q : Q)
| Inf (negative : bool)
| NaN.

Definition truediv (x y : Q) : float64 :=
  if Qeq_bool y 0
  then (if Qeq_bool x 0 then NaN else Inf (Py.ltb x 0))
  else Finite (x / y).

Definition alpha (A S : Q) : float64 :=
  let total := A + S in
  let alpha := truediv A total in
  if Py.ltb 0 total then alpha else Finite 0.

Definition sigma (A S : Q) : float64 :=
  let total := A + S in
  let sigma := truediv S total in
  if Py.ltb 0 total then sigma else Finite 0.

(** [y[-1] = stop] *)
Definition set_last (y : list Q) (stop : Q) : list Q :=
  match y with
  | [] => []
  | _ :: _ => removelast y ++ [stop]
  end.

(** [numpy.linspace(start, stop, num)] with the default [endpoint=True]:
    [num] samples [k * step + start], [step = (stop - start) / (num - 1)],
    the last one set to [stop]; a negative [num] is a [ValueError]. *)
Definition linspace (start stop : Q) (num : Z) : outcome (list Q) :=
  if (num <? 0)%Z then Raise ValueError
  else
    let div := (num - 1)%Z in
    let delta := stop - start in
    let y := map (fun k => inject_Z (Z.of_nat k)) (seq 0 (Z.to_nat num)) in
    let y := if (0 <? div)%Z
             then map (fun v => v * (delta / inject_Z div) + start) y
             else map (fun v => v * delta + start) y in
    Ok (if (1 <? num)%Z then set_last y stop else y).

End NumPy.

(** ** SciPy

    The object returned by [scipy.integrate.solve_ivp]: the sample times
    [t], the solution [y] with one row per state component and one column
    per sample time, and the [status] code ([0]: the end of the time span
    was reached; [-1]: an integration step failed). *)

Module SciPy.

Record OdeResult : Type := mkOdeResult {
  t : list Q;
  y : list (list Q);
  status : Z
}.

End SciPy.

(** ** The script

    The module-level variables of the script, as a record with one field
    per name. *)

Module Script.

Record globals : Type := mkGlobals {
  i : Q;  d : Q;  b : Q;
  γ : Q;  Ca : Q;  ka : Q;  e : Q;
  K : Q;  rS : Q;  mA : Q;  mS : Q;  rA : Q;
  S0 : Q;  A0 : Q;  P0 : Q;
  y0 : list Q;
  t_end : Z;
  timesteps : Z
}.

End Script.

(** The right-hand side as section 4.3 of the specification writes it, for
    given values [σ] and [α] of the two fractions. *)
Definition spec_derivative (t Ca S A P σ α γ e ka rS K mA mS rA i d b : Q)
  : list Q :=
  [ - γ * Ca + antibiotic_input t;
    rS * S * (1 - (S + A) / K) - e * Ca * ka - i * S * σ * P - mA * S + mS * A;
    rA * A * (1 - (S + A) / K) - i * A * α * P + mA * S - mS * A;
    b * i * P * (σ * S + α * A) - d * P + phage_input t ].

Section Driver.

(** [x ** y] on floats, and the LSODA integrator behind [solve_ivp] called
    with the derivative function, the time span, the initial state and the
    evaluation times: both are library code outside the script. *)
Variable pow : Q -> Q -> Q.
Variable solve_ivp :
  (Q -> list Q -> outcome (list Q)) -> Q * Q -> list Q -> list Q ->
  outcome SciPy.OdeResult.

(** Lines 18-37 and 97-98: the namespace after the assignments. *)
Definition script_globals : Script.globals :=
  let i := pow 10 (- (621 # 100)) in
  let d := 10 # 100 in
  let b := 106 in
  let γ := 23 # 100 in
  let Ca := 0 in
  let ka := pow 10 (54 # 10) in
  let e := 1 in
  let K := pow 10 (794 # 100) in
  let rS := 185 # 100 in
  let mA := pow 10 (- (603 # 100)) in
  let mS := pow 10 (- (603 # 100)) in
  let rA := 163 # 100 in
  let S0 := (5 # 10) * pow 10 (467 # 100) in
  let A0 := (5 # 10) * pow 10 (467 # 100) in
  let P0 := pow 10 (627 # 100) in
  let y0 := [Ca; S0; A0; P0] in
  let t_end := 126%Z in
  let timesteps := 126%Z in
  Script.mkGlobals i d b γ Ca ka e K rS mA mS rA S0 A0 P0 y0 t_end timesteps.

(** Line 99. *)
Definition t_eval (g : Script.globals) : outcome (list Q) :=
  NumPy.linspace 0 (inject_Z (Script.t_end g)) (Script.timesteps g).

(** The derivative function with [args] applied,
    [lambda t, y: model(t, y, *args)], on a state of floats.  ([solve_ivp]
    itself passes the state as an array of [numpy.float64], on which a zero
    divisor does not raise; nothing below evaluates [rhs] at a zero total
    or a zero [K].) *)
Definition rhs (g : Script.globals) (t : Q) (y : list Q) : outcome (list Q) :=
  model t y (Script.γ g) (Script.e g) (Script.ka g) (Script.rS g)
    (Script.K g) (Script.mA g) (Script.mS g) (Script.rA g) (Script.i g)
    (Script.d g) (Script.b g).

(** Line 103. *)
Definition result (g : Script.globals) : outcome SciPy.OdeResult :=
  t_eval <- t_eval g ;;
  solve_ivp (rhs g) (0, inject_Z (Script.timesteps g)) (Script.y0 g) t_eval.


End Driver.


(** Instances of the two library functions on which the driver can be run:
    integer powers with the exponent rounded down in place of [**], and in
    place of the integrator the sampler of the constant solution, which
    holds every component at its initial value over the whole grid. *)
Definition floor_pow (x y : Q) : Q := Qpower x (Qfloor y).



(** The time span of line 103, [[0, timesteps]]. *)
Definition t_span (g : Script.globals) : Q * Q :=
  (0, inject_Z (Script.timesteps g)).

(** * Properties *)

(** ** Arithmetic tests and division *)

Lemma ltb_true_iff (x y : Q) : Py.ltb x y = true <-> x < y.
Proof.
  unfold Py.ltb. rewrite negb_true_iff, <- not_true_iff_false, Qle_bool_iff.
  split; [apply Qnot_le_lt | apply Qlt_not_le].
Qed.

Lemma ltb_false_iff (x y : Q) : Py.ltb x y = false <-> y <= x.
Proof.
  unfold Py.ltb. rewrite negb_false_iff. apply Qle_bool_iff.
Qed.

Lemma leb_true_iff (x y : Q) : Py.leb x y = true <-> x <= y.
Proof. apply Qle_bool_iff. Qed.

Lemma leb_false_iff (x y : Q) : Py.leb x y = false <-> y < x.
Proof.
  unfold Py.leb. rewrite <- not_true_iff_false, Qle_bool_iff.
  split; [apply Qnot_le_lt | apply Qlt_not_le].
Qed.

Lemma truediv_nonzero (x y : Q) : ~ y == 0 -> x // y = Ok (x / y).
Proof.
  intros Hy. unfold Py.truediv.
  destruct (Qeq_bool y 0) eqn:E; [| reflexivity].
  apply Qeq_bool_iff in E. contradiction.
Qed.

Lemma truediv_zero (x y : Q) : y == 0 -> x // y = Raise ZeroDivisionError.
Proof.
  intros Hy. unfold Py.truediv. now rewrite (Qeq_eq_bool _ _ Hy).
Qed.

(** ** Fraction functions *)

Example alpha_1_3 : alpha 1 3 = Ok (1 / (1 + 3)).
Proof. reflexivity. Qed.

Example sigma_1_3 : sigma 1 3 = Ok (3 / (1 + 3)).
Proof. reflexivity. Qed.

Example alpha_opposite : alpha 2 (-2) = Raise ZeroDivisionError.
Proof. reflexivity. Qed.

Lemma alpha_nonzero (A S : Q) :
  ~ A + S == 0 ->
  alpha A S = Ok (if Py.ltb 0 (A + S) then A / (A + S) else 0).
Proof. intros H. unfold alpha. cbv zeta. now rewrite truediv_nonzero. Qed.

Lemma sigma_nonzero (A S : Q) :
  ~ A + S == 0 ->
  sigma A S = Ok (if Py.ltb 0 (A + S) then S / (A + S) else 0).
Proof. intros H. unfold sigma. cbv zeta. now rewrite truediv_nonzero. Qed.

Lemma alpha_zero_total (A S : Q) :
  A + S == 0 -> alpha A S = Raise ZeroDivisionError.
Proof. intros H. unfold alpha. cbv zeta. now rewrite truediv_zero. Qed.

Lemma sigma_zero_total (A S : Q) :
  A + S == 0 -> sigma A S = Raise ZeroDivisionError.
Proof. intros H. unfold sigma. cbv zeta. now rewrite truediv_zero. Qed.

(** With [numpy.float64] arguments the quotient of the zero population is
    [nan], the test [total > 0] fails and both functions return [0]. *)
Lemma numpy_fractions_zero_total (A S : Q) :
  A + S == 0 ->
  NumPy.alpha A S = NumPy.Finite 0 /\ NumPy.sigma A S = NumPy.Finite 0.
Proof.
  intros H. unfold NumPy.alpha, NumPy.sigma. cbv zeta.
  assert (E : Py.ltb 0 (A + S) = false) by (apply ltb_false_iff; lra).
  now rewrite E.
Qed.

(** C1.  Called on built-in numbers with a zero combined population, the
    fraction functions do not return [0]: [alpha(0, 0)] and [sigma(0, 0)]
    raise [ZeroDivisionError], because the quotient is evaluated before
    the test [total > 0]. *)
Theorem fractions_zero_population_raise :
  alpha 0 0 = Raise ZeroDivisionError /\ sigma 0 0 = Raise ZeroDivisionError.
Proof. split; reflexivity. Qed.

(** C10.  When the combined population [A + S] is strictly negative, both
    fraction functions return [0], not the ratios. *)
Theorem fractions_negative_total (A S : Q) :
  A + S < 0 -> alpha A S = Ok 0 /\ sigma A S = Ok 0.
Proof.
  intros H.
  assert (N : ~ A + S == 0) by lra.
  assert (E : Py.ltb 0 (A + S) = false) by (apply ltb_false_iff; lra).
  rewrite (alpha_nonzero _ _ N), (sigma_nonzero _ _ N), E. now split.
Qed.

Lemma fractions_negative_total_witness :
  (-3) + 1 < 0 /\ alpha (-3) 1 = Ok 0 /\ sigma (-3) 1 = Ok 0.
Proof.
  split; [reflexivity | apply (fractions_negative_total (-3) 1); reflexivity].
Defined.

(** C4.  For non-negative [A] and [S] with [A + S > 0], both fraction
    functions return and their values add up to one. *)
Theorem fractions_sum_to_one (A S : Q) :
  0 <= A -> 0 <= S -> 0 < A + S ->
  exists a s, alpha A S = Ok a /\ sigma A S = Ok s /\
              a == A / (A + S) /\ s == S / (A + S) /\ a + s == 1.
Proof.
  intros _ _ H.
  assert (N : ~ A + S == 0) by lra.
  assert (E : Py.ltb 0 (A + S) = true) by now apply ltb_true_iff.
  exists (A / (A + S)), (S / (A + S)).
  rewrite (alpha_nonzero _ _ N), (sigma_nonzero _ _ N), E.
  repeat split; try reflexivity. now field.
Qed.

Lemma fractions_sum_to_one_witness :
  exists a s, alpha 1 3 = Ok a /\ sigma 1 3 = Ok s /\
              a == 1 / (1 + 3) /\ s == 3 / (1 + 3) /\ a + s == 1.
Proof.
  apply (fractions_sum_to_one 1 3); [discriminate | discriminate | reflexivity].
Defined.

(** ** Infusion schedules *)

(** One pass of the loop body: a window that contains [t] returns the dose,
    any other window hands over to the rest of the list. *)
Lemma infusion_loop_cons (t_n : Q) (rest : list Q) (dose duration t : Q) :
  infusion_loop (t_n :: rest) dose duration t =
  if Py.leb t_n t && Py.ltb t (t_n + duration)
  then dose
  else infusion_loop rest dose duration t.
Proof. reflexivity. Qed.

Lemma window_true_iff (t_n duration t : Q) :
  Py.leb t_n t && Py.ltb t (t_n + duration) = true <->
  t_n <= t /\ t < t_n + duration.
Proof. now rewrite andb_true_iff, leb_true_iff, ltb_true_iff. Qed.

(** A schedule without injection times never infuses. *)
Lemma infusion_loop_nil (dose duration t : Q) :
  infusion_loop [] dose duration t = 0.
Proof. reflexivity. Qed.

(** A schedule whose dose is zero never infuses, whatever its windows. *)
Lemma infusion_loop_zero_dose (injection_times : list Q) (duration t : Q) :
  infusion_loop injection_times 0 duration t = 0.
Proof.
  induction injection_times as [| t_n rest IH]; [reflexivity |].
  rewrite infusion_loop_cons, IH. now destruct (_ && _).
Qed.

Example antibiotic_input_mid_window : antibiotic_input (201 # 2) = 661 # 100.
Proof. reflexivity. Qed.

Example antibiotic_input_after_window : antibiotic_input 126 = 0.
Proof. reflexivity. Qed.

(** C3.  [antibiotic_input t] is [6.61] for [100 <= t < 101] and [0] for
    every other [t]. *)
Theorem antibiotic_input_window (t : Q) :
  (100 <= t /\ t < 101 -> antibiotic_input t = 661 # 100) /\
  (~ (100 <= t /\ t < 101) -> antibiotic_input t = 0).
Proof.
  unfold antibiotic_input. cbv zeta.
  rewrite infusion_loop_cons, infusion_loop_nil.
  destruct (Py.leb 100 t && Py.ltb t (100 + 1)) eqn:W.
  - split; [reflexivity |].
    intros Hout. exfalso. apply Hout.
    apply window_true_iff in W. destruct W as [Hlo Hhi].
    split; [exact Hlo | lra].
  - split; [| reflexivity].
    intros [Hlo Hhi].
    assert (W' : Py.leb 100 t && Py.ltb t (100 + 1) = true)
      by (apply window_true_iff; split; [exact Hlo | lra]).
    congruence.
Qed.

Lemma antibiotic_input_window_witness :
  antibiotic_input 100 = 661 # 100 /\
  antibiotic_input (1009 # 10) = 661 # 100 /\
  antibiotic_input 99 = 0 /\
  antibiotic_input 101 = 0.
Proof.
  split; [| split; [| split]].
  - apply (proj1 (antibiotic_input_window 100)).
    split; [discriminate | reflexivity].
  - apply (proj1 (antibiotic_input_window (1009 # 10))).
    split; [discriminate | reflexivity].
  - apply (proj2 (antibiotic_input_window 99)).
    intros [Hlo _]. apply Hlo. reflexivity.
  - apply (proj2 (antibiotic_input_window 101)).
    intros [_ Hhi]. discriminate Hhi.
Defined.

(** C5.  [phage_input t] is [0] for every [t]: inside the window
    [0 <= t < 1] it returns the dose, which is [0], and outside it the
    loop falls through to [return 0]. *)
Theorem phage_input_zero (t : Q) : phage_input t = 0.
Proof.
  unfold phage_input. cbv zeta.
  rewrite infusion_loop_cons, infusion_loop_nil.
  destruct (Py.leb 0 t && Py.ltb t (0 + 1)); reflexivity.
Qed.

(** ** The ODE right-hand side *)

(** A state of the wrong length is rejected by the unpacking. *)
Lemma model_wrong_length (t : Q) (y : list Q) (γ e ka rS K mA mS rA i d b : Q) :
  length y <> 4%nat ->
  model t y γ e ka rS K mA mS rA i d b = Raise ValueError.
Proof.
  intros H. unfold model, Py.unpack4.
  destruct y as [| a [| b0 [| c [| d0 [| x y]]]]]; try reflexivity.
  now contradiction H.
Qed.

Example model_sample :
  model 100 [2; 3; 1; 5] 1 1 1 2 10 (1 # 7) (1 # 9) 1 1 1 1 =
  Ok (spec_derivative 100 2 3 1 5 (3 / (1 + 3)) (1 / (1 + 3))
        1 1 1 2 10 (1 # 7) (1 # 9) 1 1 1 1).
Proof. reflexivity. Qed.

(** Away from the zero divisors, [model] returns the four components the
    specification lists, with [σ] and [α] the values [sigma] and [alpha]
    return for the current [A] and [S], and with nothing clamped. *)
Lemma model_matches_spec (t Ca S A P γ e ka rS K mA mS rA i d b : Q) :
  ~ A + S == 0 -> ~ K == 0 ->
  exists σ α,
    sigma A S = Ok σ /\ alpha A S = Ok α /\
    model t [Ca; S; A; P] γ e ka rS K mA mS rA i d b =
    Ok (spec_derivative t Ca S A P σ α γ e ka rS K mA mS rA i d b).
Proof.
  intros HAS HK.
  exists (if Py.ltb 0 (A + S) then S / (A + S) else 0),
         (if Py.ltb 0 (A + S) then A / (A + S) else 0).
  split; [now apply sigma_nonzero | split; [now apply alpha_nonzero |]].
  unfold model, Py.unpack4.
  rewrite (sigma_nonzero _ _ HAS), (alpha_nonzero _ _ HAS).
  cbn [Py.bind]. cbv zeta.
  rewrite (truediv_nonzero _ _ HK). reflexivity.
Qed.

(** A zero carrying capacity makes the logistic term divide by zero. *)
Lemma model_zero_capacity (t Ca S A P γ e ka rS K mA mS rA i d b : Q) :
  K == 0 ->
  model t [Ca; S; A; P] γ e ka rS K mA mS rA i d b = Raise ZeroDivisionError.
Proof.
  intros HK. unfold model, Py.unpack4, sigma, alpha. cbv zeta.
  unfold Py.truediv at 1 2.
  destruct (Qeq_bool (A + S) 0); cbn [Py.bind]; [reflexivity |].
  now rewrite (truediv_zero _ _ HK).
Qed.

(** Whenever the combined population is zero the call to [sigma] raises
    and so does [model]. *)
Lemma model_zero_total (t Ca S A P γ e ka rS K mA mS rA i d b : Q) :
  A + S == 0 ->
  model t [Ca; S; A; P] γ e ka rS K mA mS rA i d b = Raise ZeroDivisionError.
Proof.
  intros H. unfold model, Py.unpack4.
  now rewrite (sigma_zero_total _ _ H).
Qed.

(** C2.  [model] does not return a derivative vector for every state: on
    a state of built-in numbers without bacteria ([S = A = 0]) it raises
    [ZeroDivisionError], for every time, antibiotic level, phage density
    and parameter set.  On all other states (and [K] non-zero) it returns
    the listed vector, see [model_matches_spec]. *)
Theorem model_no_bacteria_raises (t Ca P γ e ka rS K mA mS rA i d b : Q) :
  model t [Ca; 0; 0; P] γ e ka rS K mA mS rA i d b = Raise ZeroDivisionError.
Proof. reflexivity. Qed.

(** C9.  For a state with [A + S] non-zero (and a non-zero carrying
    capacity), the second and third components returned by [model] add up
    to an expression without mutation terms; the sum is the same for any
    other pair of mutation rates. *)
Theorem mutation_terms_cancel (t Ca S A P γ e ka rS K mA mS rA i d b : Q) :
  ~ A + S == 0 -> ~ K == 0 ->
  exists σ α dCa dS dA dP,
    sigma A S = Ok σ /\ alpha A S = Ok α /\
    model t [Ca; S; A; P] γ e ka rS K mA mS rA i d b = Ok [dCa; dS; dA; dP] /\
    dS + dA == rS * S * (1 - (S + A) / K) + rA * A * (1 - (S + A) / K)
               - e * Ca * ka - i * P * (σ * S + α * A) /\
    forall mA' mS', exists dCa' dS' dA' dP',
      model t [Ca; S; A; P] γ e ka rS K mA' mS' rA i d b
        = Ok [dCa'; dS'; dA'; dP'] /\
      dS' + dA' == dS + dA.
Proof.
  intros HAS HK.
  destruct (model_matches_spec t Ca S A P γ e ka rS K mA mS rA i d b HAS HK)
    as (σ & α & Hσ & Hα & Hm).
  unfold spec_derivative in Hm.
  do 6 eexists.
  split; [exact Hσ |]. split; [exact Hα |]. split; [exact Hm |].
  split; [now field |].
  intros mA' mS'.
  destruct (model_matches_spec t Ca S A P γ e ka rS K mA' mS' rA i d b HAS HK)
    as (σ' & α' & Hσ' & Hα' & Hm').
  assert (σ' = σ) by congruence. assert (α' = α) by congruence. subst σ' α'.
  unfold spec_derivative in Hm'.
  do 4 eexists. split; [exact Hm' |]. now field.
Qed.

Lemma mutation_terms_cancel_witness :
  exists σ α dCa dS dA dP,
    sigma 1 3 = Ok σ /\ alpha 1 3 = Ok α /\
    model 0 [0; 3; 1; 5] 1 1 1 2 10 (1 # 7) (1 # 9) 1 1 1 1
      = Ok [dCa; dS; dA; dP] /\
    dS + dA == 2 * 3 * (1 - (3 + 1) / 10) + 1 * 1 * (1 - (3 + 1) / 10)
               - 1 * 0 * 1 - 1 * 5 * (σ * 3 + α * 1) /\
    forall mA' mS', exists dCa' dS' dA' dP',
      model 0 [0; 3; 1; 5] 1 1 1 2 10 mA' mS' 1 1 1 1
        = Ok [dCa'; dS'; dA'; dP'] /\
      dS' + dA' == dS + dA.
Proof.
  apply (mutation_terms_cancel 0 0 3 1 5 1 1 1 2 10 (1 # 7) (1 # 9) 1 1 1 1);
    discriminate.
Defined.

(** ** The evaluation grid *)

Lemma set_last_length (y : list Q) (stop : Q) :
  length (NumPy.set_last y stop) = length y.
Proof.
  destruct y as [| a y]; [reflexivity |].
  unfold NumPy.set_last.
  assert (H : (a :: y) <> []) by discriminate.
  rewrite (app_removelast_last 0 H) at 2.
  now rewrite !length_app.
Qed.

Lemma set_last_nth (y : list Q) (stop d : Q) (k : nat) :
  (k < length y)%nat ->
  nth k (NumPy.set_last y stop) d =
  if (S k =? length y)%nat then stop else nth k y d.
Proof.
  revert k. induction y as [| a y IH]; intros k Hk; [cbn in Hk; lia |].
  destruct y as [| b y].
  - cbn in Hk. assert (k = 0%nat) by lia. subst k. reflexivity.
  - change (NumPy.set_last (a :: b :: y) stop)
      with (a :: NumPy.set_last (b :: y) stop).
    destruct k as [| k]; [reflexivity |].
    cbn [nth]. rewrite IH by (cbn [length] in *; lia).
    reflexivity.
Qed.

(** [linspace] with at least two samples: [num] points, the [k]-th at
    [start + k * (stop - start) / (num - 1)]. *)
Lemma linspace_samples (start stop : Q) (num : Z) :
  (1 < num)%Z ->
  exists grid,
    NumPy.linspace start stop num = Ok grid /\
    length grid = Z.to_nat num /\
    forall k, (k < Z.to_nat num)%nat ->
      nth k grid 0 ==
      start + inject_Z (Z.of_nat k) * ((stop - start) / inject_Z (num - 1)).
Proof.
  intros Hnum. unfold NumPy.linspace.
  assert (E1 : (num <? 0)%Z = false) by (apply Z.ltb_ge; lia).
  assert (E2 : (0 <? num - 1)%Z = true) by (apply Z.ltb_lt; lia).
  assert (E3 : (1 <? num)%Z = true) by (apply Z.ltb_lt; lia).
  rewrite E1. cbv zeta. rewrite E2, E3.
  eexists. split; [reflexivity |].
  set (step := (stop - start) / inject_Z (num - 1)).
  set (f := fun k : nat => inject_Z (Z.of_nat k) * step + start).
  assert (Hmap : map (fun v => v * step + start)
                   (map (fun k => inject_Z (Z.of_nat k)) (seq 0 (Z.to_nat num)))
                 = map f (seq 0 (Z.to_nat num)))
    by (rewrite map_map; reflexivity).
  rewrite Hmap.
  assert (Hlen : length (map f (seq 0 (Z.to_nat num))) = Z.to_nat num)
    by (rewrite length_map, length_seq; reflexivity).
  split; [now rewrite set_last_length |].
  intros k Hk.
  rewrite set_last_nth by (rewrite Hlen; exact Hk).
  rewrite Hlen.
  destruct (Nat.eqb_spec (S k) (Z.to_nat num)) as [Hlast | Hin].
  - assert (Hk' : inject_Z (Z.of_nat k) == inject_Z (num - 1)).
    { apply inject_Z_injective. lia. }
    rewrite Hk'. unfold step. field.
    change 0 with (inject_Z 0). rewrite inject_Z_injective. lia.
  - rewrite (nth_indep _ 0 (f 0%nat)) by (rewrite Hlen; exact Hk).
    rewrite map_nth, seq_nth by exact Hk.
    unfold f. cbn [Nat.add]. ring.
Qed.

(** ** The script *)


Section DriverProperties.

Variable pow : Q -> Q -> Q.
Variable solve_ivp :
  (Q -> list Q -> outcome (list Q)) -> Q * Q -> list Q -> list Q ->
  outcome SciPy.OdeResult.



(** C8.  At [t = 0] and the initial state [y0 = [0, S0, A0, P0]] the
    derivative function returns a vector whose first component is zero. *)
Theorem initial_antibiotic_rate_zero :
  0 < pow 10 (467 # 100) -> 0 < pow 10 (794 # 100) ->
  Script.y0 (script_globals pow) =
    [0; (5 # 10) * pow 10 (467 # 100); (5 # 10) * pow 10 (467 # 100);
     pow 10 (627 # 100)] /\
  exists dCa_dt dS_dt dA_dt dP_dt,
    rhs (script_globals pow) 0 (Script.y0 (script_globals pow)) =
      Ok [dCa_dt; dS_dt; dA_dt; dP_dt] /\
    dCa_dt == 0.
Proof.
  intros Hbact Hcap. split; [reflexivity |].
  unfold rhs. cbn [script_globals Script.y0 Script.γ Script.e Script.ka
    Script.rS Script.K Script.mA Script.mS Script.rA Script.i Script.d
    Script.b].
  match goal with
  | |- context [model ?t [?Ca; ?S; ?A; ?P] ?γ ?e ?ka ?rS ?K ?mA ?mS ?rA ?i ?d ?b] =>
      destruct (model_matches_spec t Ca S A P γ e ka rS K mA mS rA i d b)
        as (σ & α & _ & _ & Hm); [lra | lra |]
  end.
  rewrite Hm. unfold spec_derivative.
  do 4 eexists. split; [reflexivity |].
  reflexivity.
Qed.

End DriverProperties.


Lemma initial_antibiotic_rate_zero_witness :
  Script.y0 (script_globals floor_pow) =
    [0; (5 # 10) * floor_pow 10 (467 # 100);
     (5 # 10) * floor_pow 10 (467 # 100); floor_pow 10 (627 # 100)] /\
  exists dCa_dt dS_dt dA_dt dP_dt,
    rhs (script_globals floor_pow) 0 (Script.y0 (script_globals floor_pow)) =
      Ok [dCa_dt; dS_dt; dA_dt; dP_dt] /\
    dCa_dt == 0.
Proof.
  apply (initial_antibiotic_rate_zero floor_pow); reflexivity.
Defined.

(** * Further properties *)

(** ** Values of the schedules and of the right-hand side *)

Lemma antibiotic_input_inside (t : Q) :
  100 <= t -> t < 101 -> antibiotic_input t = 661 # 100.
Proof.
  intros Hlo Hhi. unfold antibiotic_input. cbv zeta.
  rewrite infusion_loop_cons.
  assert (W : Py.leb 100 t && Py.ltb t (100 + 1) = true)
    by (apply window_true_iff; split; [exact Hlo | lra]).
  now rewrite W.
Qed.

Lemma antibiotic_input_outside (t : Q) :
  t < 100 \/ 101 <= t -> antibiotic_input t = 0.
Proof.
  intros Hout. unfold antibiotic_input. cbv zeta.
  rewrite infusion_loop_cons, infusion_loop_nil.
  destruct (Py.leb 100 t && Py.ltb t (100 + 1)) eqn:W; [| reflexivity].
  apply window_true_iff in W. lra.
Qed.

Lemma antibiotic_input_cases (t : Q) :
  antibiotic_input t = 0 \/ antibiotic_input t = 661 # 100.
Proof.
  unfold antibiotic_input. cbv zeta.
  rewrite infusion_loop_cons, infusion_loop_nil.
  destruct (_ && _); [now right | now left].
Qed.

Lemma phage_input_eval (t : Q) : phage_input t = 0.
Proof. unfold phage_input. cbv zeta. apply infusion_loop_zero_dose. Qed.

(** The value [model] returns away from the zero divisors, with the two
    fractions written out. *)
Lemma model_value (t Ca S A P γ e ka rS K mA mS rA i d b : Q) :
  ~ A + S == 0 -> ~ K == 0 ->
  model t [Ca; S; A; P] γ e ka rS K mA mS rA i d b =
  Ok (spec_derivative t Ca S A P
        (if Py.ltb 0 (A + S) then S / (A + S) else 0)
        (if Py.ltb 0 (A + S) then A / (A + S) else 0)
        γ e ka rS K mA mS rA i d b).
Proof.
  intros HAS HK.
  destruct (model_matches_spec t Ca S A P γ e ka rS K mA mS rA i d b HAS HK)
    as (σ & α & Hσ & Hα & Hm).
  rewrite (sigma_nonzero _ _ HAS) in Hσ. rewrite (alpha_nonzero _ _ HAS) in Hα.
  injection Hσ as <-. injection Hα as <-. exact Hm.
Qed.

(** A state of four components never fails in the unpacking: [model]
    either returns or raises [ZeroDivisionError]. *)
Lemma model_four_cases (t Ca S A P γ e ka rS K mA mS rA i d b : Q) :
  (exists v, model t [Ca; S; A; P] γ e ka rS K mA mS rA i d b = Ok v) \/
  model t [Ca; S; A; P] γ e ka rS K mA mS rA i d b = Raise ZeroDivisionError.
Proof.
  destruct (Qeq_dec (A + S) 0) as [HAS | HAS];
    [right; now apply model_zero_total |].
  destruct (Qeq_dec K 0) as [HK | HK];
    [right; now apply model_zero_capacity |].
  left. eexists. now apply model_value.
Qed.

(** ** Error behaviour of [model] *)

(** X1.  [model] raises [ValueError] exactly when the state does not have
    four components; no parameter value and no state of four components
    produces that error. *)
Theorem model_value_error_iff (t : Q) (y : list Q)
    (γ e ka rS K mA mS rA i d b : Q) :
  model t y γ e ka rS K mA mS rA i d b = Raise ValueError <->
  length y <> 4%nat.
Proof.
  split.
  - intros Hm Hlen.
    destruct y as [| Ca [| S [| A [| P [| x y]]]]]; try discriminate Hlen.
    destruct (model_four_cases t Ca S A P γ e ka rS K mA mS rA i d b)
      as [[v Hv] | Hz]; congruence.
  - apply model_wrong_length.
Qed.

Lemma model_value_error_iff_witness :
  model 0 [1; 2; 3] 1 1 1 1 1 1 1 1 1 1 1 = Raise ValueError /\
  model 0 [1; 2; 3; 4; 5] 1 1 1 1 0 1 1 1 1 1 1 = Raise ValueError.
Proof.
  split.
  - apply (proj2 (model_value_error_iff 0 [1; 2; 3] 1 1 1 1 1 1 1 1 1 1 1)).
    discriminate.
  - apply (proj2 (model_value_error_iff 0 [1; 2; 3; 4; 5] 1 1 1 1 0 1 1 1 1 1 1)).
    discriminate.
Defined.

(** X2.  On a state of four floats, with float parameters, [model]
    raises [ZeroDivisionError] exactly when [A + S] or the carrying
    capacity [K] is zero, and returns a vector of four components in every
    other case. *)
Theorem model_zero_division_iff (t Ca S A P γ e ka rS K mA mS rA i d b : Q) :
  (model t [Ca; S; A; P] γ e ka rS K mA mS rA i d b = Raise ZeroDivisionError
   <-> A + S == 0 \/ K == 0) /\
  ((exists dCa dS dA dP,
      model t [Ca; S; A; P] γ e ka rS K mA mS rA i d b = Ok [dCa; dS; dA; dP])
   <-> ~ A + S == 0 /\ ~ K == 0).
Proof.
  destruct (Qeq_dec (A + S) 0) as [HAS | HAS].
  - pose proof (model_zero_total t Ca S A P γ e ka rS K mA mS rA i d b HAS) as E.
    split; split.
    + intros _. now left.
    + intros _. exact E.
    + intros (a & b0 & c & d0 & Hm). congruence.
    + intros [H _]. contradiction.
  - destruct (Qeq_dec K 0) as [HK | HK].
    + pose proof (model_zero_capacity t Ca S A P γ e ka rS K mA mS rA i d b HK)
        as E.
      split; split.
      * intros _. now right.
      * intros _. exact E.
      * intros (a & b0 & c & d0 & Hm). congruence.
      * intros [_ H]. contradiction.
    + pose proof (model_value t Ca S A P γ e ka rS K mA mS rA i d b HAS HK) as E.
      unfold spec_derivative in E.
      split; split.
      * intros Hm. congruence.
      * intros [H | H]; contradiction.
      * intros _. now split.
      * intros _. do 4 eexists. exact E.
Qed.

Lemma model_zero_division_iff_witness :
  model 0 [1; 2; (-2); 3] 1 1 1 1 10 1 1 1 1 1 1 = Raise ZeroDivisionError /\
  model 0 [1; 2; 5; 3] 1 1 1 1 0 1 1 1 1 1 1 = Raise ZeroDivisionError /\
  exists dCa dS dA dP,
    model 0 [1; 2; 5; 3] 1 1 1 1 10 1 1 1 1 1 1 = Ok [dCa; dS; dA; dP].
Proof.
  split; [| split].
  - apply (proj2 (proj1 (model_zero_division_iff
                           0 1 2 (-2) 3 1 1 1 1 10 1 1 1 1 1 1))).
    left. reflexivity.
  - apply (proj2 (proj1 (model_zero_division_iff
                           0 1 2 5 3 1 1 1 1 0 1 1 1 1 1 1))).
    right. reflexivity.
  - apply (proj2 (proj2 (model_zero_division_iff
                           0 1 2 5 3 1 1 1 1 10 1 1 1 1 1 1))).
    split; discriminate.
Defined.

(** ** The fraction functions *)

Lemma ltb_total_comm (A S : Q) : Py.ltb 0 (S + A) = Py.ltb 0 (A + S).
Proof.
  destruct (Py.ltb 0 (A + S)) eqn:E.
  - apply ltb_true_iff. apply ltb_true_iff in E. lra.
  - apply ltb_false_iff. apply ltb_false_iff in E. lra.
Qed.

(** X3.  For non-negative [A] and [S] with a positive total, both returned
    fractions lie between 0 and 1. *)
Theorem fractions_in_unit_interval (A S : Q) :
  0 <= A -> 0 <= S -> 0 < A + S ->
  exists a s, alpha A S = Ok a /\ sigma A S = Ok s /\
              0 <= a /\ a <= 1 /\ 0 <= s /\ s <= 1.
Proof.
  intros HA HS HT.
  assert (N : ~ A + S == 0) by lra.
  assert (E : Py.ltb 0 (A + S) = true) by now apply ltb_true_iff.
  exists (A / (A + S)), (S / (A + S)).
  rewrite (alpha_nonzero _ _ N), (sigma_nonzero _ _ N), E.
  split; [reflexivity |]. split; [reflexivity |].
  repeat split.
  - apply Qle_shift_div_l; [exact HT | lra].
  - apply Qle_shift_div_r; [exact HT | lra].
  - apply Qle_shift_div_l; [exact HT | lra].
  - apply Qle_shift_div_r; [exact HT | lra].
Qed.

Lemma fractions_in_unit_interval_witness :
  exists a s, alpha 0 7 = Ok a /\ sigma 0 7 = Ok s /\
              0 <= a /\ a <= 1 /\ 0 <= s /\ s <= 1.
Proof.
  apply (fractions_in_unit_interval 0 7); [discriminate | discriminate |].
  reflexivity.
Defined.

(** X4.  [sigma] is [alpha] with the two populations exchanged: on the
    same pair both raise, or both return and the values agree. *)
Theorem sigma_is_alpha_swapped (A S : Q) :
  (A + S == 0 ->
   sigma A S = Raise ZeroDivisionError /\
   alpha S A = Raise ZeroDivisionError) /\
  (~ A + S == 0 ->
   exists s a, sigma A S = Ok s /\ alpha S A = Ok a /\ s == a).
Proof.
  split.
  - intros H. split; [now apply sigma_zero_total |].
    apply alpha_zero_total. lra.
  - intros H.
    assert (H' : ~ S + A == 0) by lra.
    rewrite (sigma_nonzero _ _ H), (alpha_nonzero _ _ H'), (ltb_total_comm A S).
    do 2 eexists. split; [reflexivity |]. split; [reflexivity |].
    destruct (Py.ltb 0 (A + S)); [| reflexivity].
    now field.
Qed.

Lemma sigma_is_alpha_swapped_witness :
  (sigma 2 (-2) = Raise ZeroDivisionError /\
   alpha (-2) 2 = Raise ZeroDivisionError) /\
  exists s a, sigma 1 3 = Ok s /\ alpha 3 1 = Ok a /\ s == a.
Proof.
  split.
  - apply (proj1 (sigma_is_alpha_swapped 2 (-2))). reflexivity.
  - apply (proj2 (sigma_is_alpha_swapped 1 3)). discriminate.
Defined.

(** X5.  The fractions do not depend on the unit of the densities:
    multiplying both populations by the same positive factor leaves both
    fractions unchanged. *)
Theorem fractions_scale_invariant (c A S : Q) :
  0 < c -> ~ A + S == 0 ->
  exists a a' s s',
    alpha A S = Ok a /\ alpha (c * A) (c * S) = Ok a' /\ a' == a /\
    sigma A S = Ok s /\ sigma (c * A) (c * S) = Ok s' /\ s' == s.
Proof.
  intros Hc H.
  assert (Hsum : c * A + c * S == c * (A + S)) by ring.
  assert (H' : ~ c * A + c * S == 0) by nra.
  assert (E : Py.ltb 0 (c * A + c * S) = Py.ltb 0 (A + S)).
  { destruct (Py.ltb 0 (A + S)) eqn:E.
    - apply ltb_true_iff. apply ltb_true_iff in E. nra.
    - apply ltb_false_iff. apply ltb_false_iff in E. nra. }
  rewrite (alpha_nonzero _ _ H), (alpha_nonzero _ _ H'),
    (sigma_nonzero _ _ H), (sigma_nonzero _ _ H'), E.
  assert (Hc' : ~ c == 0) by lra.
  do 4 eexists.
  split; [reflexivity |]. split; [reflexivity |].
  split; [destruct (Py.ltb 0 (A + S)); [now field | reflexivity] |].
  split; [reflexivity |]. split; [reflexivity |].
  destruct (Py.ltb 0 (A + S)); [now field | reflexivity].
Qed.

Lemma fractions_scale_invariant_witness :
  exists a a' s s',
    alpha 1 3 = Ok a /\ alpha (1000 * 1) (1000 * 3) = Ok a' /\ a' == a /\
    sigma 1 3 = Ok s /\ sigma (1000 * 1) (1000 * 3) = Ok s' /\ s' == s.
Proof.
  apply (fractions_scale_invariant 1000 1 3); [reflexivity | discriminate].
Defined.

(** X6.  On finite [numpy.float64] arguments the fraction functions
    return a finite number, the zero total included: the [nan] or infinity
    that the division produces at a zero total is discarded by the test
    [total > 0]. *)
Theorem numpy_fractions_finite (A S : Q) :
  exists a s, NumPy.alpha A S = NumPy.Finite a /\
              NumPy.sigma A S = NumPy.Finite s.
Proof.
  unfold NumPy.alpha, NumPy.sigma, NumPy.truediv. cbv zeta.
  destruct (Py.ltb 0 (A + S)) eqn:E.
  - apply ltb_true_iff in E.
    assert (Z : Qeq_bool (A + S) 0 = false).
    { apply not_true_iff_false. rewrite Qeq_bool_iff. lra. }
    rewrite Z. now do 2 eexists.
  - now do 2 eexists.
Qed.

(** X7.  Away from the zero total, the two readings of the fraction
    functions agree: what they return on built-in numbers is what they
    return on [numpy.float64] scalars. *)
Theorem numpy_fractions_agree (A S : Q) :
  ~ A + S == 0 ->
  exists a s,
    alpha A S = Ok a /\ NumPy.alpha A S = NumPy.Finite a /\
    sigma A S = Ok s /\ NumPy.sigma A S = NumPy.Finite s.
Proof.
  intros H.
  rewrite (alpha_nonzero _ _ H), (sigma_nonzero _ _ H).
  unfold NumPy.alpha, NumPy.sigma, NumPy.truediv. cbv zeta.
  assert (Z : Qeq_bool (A + S) 0 = false).
  { apply not_true_iff_false. now rewrite Qeq_bool_iff. }
  rewrite Z.
  do 2 eexists. repeat split; now destruct (Py.ltb 0 (A + S)).
Qed.

Lemma numpy_fractions_agree_witness :
  exists a s,
    alpha (-3) 1 = Ok a /\ NumPy.alpha (-3) 1 = NumPy.Finite a /\
    sigma (-3) 1 = Ok s /\ NumPy.sigma (-3) 1 = NumPy.Finite s.
Proof.
  apply (numpy_fractions_agree (-3) 1). discriminate.
Defined.

(** ** The schedule loop *)

(** X8.  The loop returns the dose when at least one injection window
    contains [t] and [0] when none does, for any list of injection times:
    overlapping or repeated windows do not add their doses up, and the
    order of the list does not matter. *)
Theorem infusion_loop_any_window (injection_times : list Q)
    (dose duration t : Q) :
  (Exists (fun t_n => t_n <= t /\ t < t_n + duration) injection_times ->
   infusion_loop injection_times dose duration t = dose) /\
  (~ Exists (fun t_n => t_n <= t /\ t < t_n + duration) injection_times ->
   infusion_loop injection_times dose duration t = 0).
Proof.
  induction injection_times as [| t_n rest [IHin IHout]].
  - split; [intros H; inversion H | reflexivity].
  - rewrite infusion_loop_cons.
    destruct (Py.leb t_n t && Py.ltb t (t_n + duration)) eqn:W.
    + split; [reflexivity |].
      intros Hnone. exfalso. apply Hnone. apply Exists_cons_hd.
      now apply window_true_iff.
    + split.
      * intros Hsome. apply IHin.
        inversion Hsome as [? ? Hhd | ? ? Htl]; subst; [| exact Htl].
        apply window_true_iff in Hhd. congruence.
      * intros Hnone. apply IHout. intros Htl. apply Hnone.
        now apply Exists_cons_tl.
Qed.

Lemma infusion_loop_any_window_witness :
  infusion_loop [10; 11; 10] 5 2 (23 # 2) = 5 /\
  infusion_loop [10; 11; 10] 5 2 13 = 0.
Proof.
  split.
  - apply (proj1 (infusion_loop_any_window [10; 11; 10] 5 2 (23 # 2))).
    apply Exists_cons_tl, Exists_cons_hd. split; [discriminate | reflexivity].
  - apply (proj2 (infusion_loop_any_window [10; 11; 10] 5 2 13)).
    intros H.
    inversion_clear H as [? ? [_ H1] | ? ? H1]; [discriminate H1 |].
    inversion_clear H1 as [? ? [_ H2] | ? ? H2]; [discriminate H2 |].
    inversion_clear H2 as [? ? [_ H3] | ? ? H3]; [discriminate H3 |].
    inversion H3.
Defined.

(** X9.  The antibiotic is infused once: a time at which
    [antibiotic_input] returns the dose lies in [[100, 101)], and at every
    other time that differs from it by a non-zero multiple of 12 hours the
    function returns [0], although its docstring announces a dose every 12
    hours. *)
Theorem antibiotic_input_not_periodic (t : Q) (k : Z) :
  antibiotic_input t = 661 # 100 -> k <> 0%Z ->
  (100 <= t /\ t < 101) /\
  antibiotic_input (t + 12 * inject_Z k) = 0.
Proof.
  intros Hdose Hk.
  assert (Hwin : 100 <= t /\ t < 101).
  { destruct (Qlt_le_dec t 100) as [Hlo | Hlo].
    - rewrite antibiotic_input_outside in Hdose by now left.
      discriminate Hdose.
    - destruct (Qlt_le_dec t 101) as [Hhi | Hhi]; [now split |].
      rewrite antibiotic_input_outside in Hdose by now right.
      discriminate Hdose. }
  split; [exact Hwin |].
  apply antibiotic_input_outside.
  destruct (Z_lt_le_dec k 0) as [Hneg | Hpos].
  - left.
    assert (Hq : inject_Z k <= inject_Z (-1)) by (rewrite <- Zle_Qle; lia).
    change (inject_Z (-1)) with (-1 # 1) in Hq. lra.
  - right.
    assert (Hq : inject_Z 1 <= inject_Z k) by (rewrite <- Zle_Qle; lia).
    change (inject_Z 1) with 1 in Hq. lra.
Qed.

Lemma antibiotic_input_not_periodic_witness :
  (100 <= 201 # 2 /\ 201 # 2 < 101) /\
  antibiotic_input ((201 # 2) + 12 * inject_Z 1) = 0.
Proof.
  apply (antibiotic_input_not_periodic (201 # 2) 1);
    [reflexivity | discriminate].
Defined.

(** ** The right-hand side as a vector field *)

(** X10.  Outside the infusion hour the system is autonomous: for two
    times that both lie outside [[100, 101)], [model] gives the same
    outcome on every state and parameter set. *)
Theorem model_autonomous_outside_dose (t t' : Q) (y : list Q)
    (γ e ka rS K mA mS rA i d b : Q) :
  t < 100 \/ 101 <= t -> t' < 100 \/ 101 <= t' ->
  model t y γ e ka rS K mA mS rA i d b =
  model t' y γ e ka rS K mA mS rA i d b.
Proof.
  intros Ht Ht'. unfold model.
  rewrite (antibiotic_input_outside t Ht), (antibiotic_input_outside t' Ht').
  rewrite (phage_input_eval t), (phage_input_eval t').
  reflexivity.
Qed.

Lemma model_autonomous_outside_dose_witness :
  model 0 [2; 3; 1; 5] 1 1 1 2 10 (1 # 7) (1 # 9) 1 1 1 1 =
  model 126 [2; 3; 1; 5] 1 1 1 2 10 (1 # 7) (1 # 9) 1 1 1 1.
Proof.
  apply (model_autonomous_outside_dose 0 126); [left | right];
    [reflexivity | discriminate].
Defined.

(** X11.  During the infusion hour only the antibiotic equation changes:
    compared with a time outside the window, the first component is
    larger by the dose 6.61 and the other three components are the same. *)
Theorem model_dose_shifts_antibiotic_only (t t' Ca S A P
    γ e ka rS K mA mS rA i d b : Q) :
  100 <= t -> t < 101 -> t' < 100 \/ 101 <= t' ->
  ~ A + S == 0 -> ~ K == 0 ->
  exists dCa dCa' dS dA dP,
    model t [Ca; S; A; P] γ e ka rS K mA mS rA i d b = Ok [dCa; dS; dA; dP] /\
    model t' [Ca; S; A; P] γ e ka rS K mA mS rA i d b = Ok [dCa'; dS; dA; dP] /\
    dCa == dCa' + (661 # 100).
Proof.
  intros Hlo Hhi Ht' HAS HK.
  rewrite !(model_value _ _ _ _ _ _ _ _ _ _ _ _ _ _ _ _ HAS HK).
  unfold spec_derivative.
  rewrite (antibiotic_input_inside t Hlo Hhi), (antibiotic_input_outside t' Ht').
  rewrite (phage_input_eval t), (phage_input_eval t').
  do 5 eexists. split; [reflexivity |]. split; [reflexivity |]. ring.
Qed.

Lemma model_dose_shifts_antibiotic_only_witness :
  exists dCa dCa' dS dA dP,
    model 100 [2; 3; 1; 5] 1 1 1 2 10 (1 # 7) (1 # 9) 1 1 1 1
      = Ok [dCa; dS; dA; dP] /\
    model 101 [2; 3; 1; 5] 1 1 1 2 10 (1 # 7) (1 # 9) 1 1 1 1
      = Ok [dCa'; dS; dA; dP] /\
    dCa == dCa' + (661 # 100).
Proof.
  apply (model_dose_shifts_antibiotic_only 100 101 2 3 1 5
           1 1 1 2 10 (1 # 7) (1 # 9) 1 1 1 1);
    try discriminate; try reflexivity.
  right. discriminate.
Defined.

(** X12.  A state without phages has no phage growth: with [P = 0] the
    fourth component is zero at every time, so phages never appear unless
    they are present initially. *)
Theorem model_phage_free (t Ca S A γ e ka rS K mA mS rA i d b : Q) :
  ~ A + S == 0 -> ~ K == 0 ->
  exists dCa dS dA dP,
    model t [Ca; S; A; 0] γ e ka rS K mA mS rA i d b = Ok [dCa; dS; dA; dP] /\
    dP == 0.
Proof.
  intros HAS HK.
  rewrite (model_value _ _ _ _ _ _ _ _ _ _ _ _ _ _ _ _ HAS HK).
  unfold spec_derivative. rewrite (phage_input_eval t).
  do 4 eexists. split; [reflexivity |]. ring.
Qed.

Lemma model_phage_free_witness :
  exists dCa dS dA dP,
    model 100 [2; 3; 1; 0] 1 1 1 2 10 (1 # 7) (1 # 9) 1 1 1 1
      = Ok [dCa; dS; dA; dP] /\
    dP == 0.
Proof.
  apply (model_phage_free 100 2 3 1 1 1 1 2 10 (1 # 7) (1 # 9) 1 1 1 1);
    discriminate.
Defined.





(** X15.  With no antibiotic present ([Ca = 0]) the first component is the
    current infusion rate: it is never negative, and it is zero at every
    time outside the infusion hour, for every state and parameter set on
    which [model] returns. *)
Theorem model_antibiotic_free (t S A P γ e ka rS K mA mS rA i d b : Q) :
  ~ A + S == 0 -> ~ K == 0 ->
  exists dCa dS dA dP,
    model t [0; S; A; P] γ e ka rS K mA mS rA i d b = Ok [dCa; dS; dA; dP] /\
    dCa == antibiotic_input t /\ 0 <= dCa /\
    (t < 100 \/ 101 <= t -> dCa == 0).
Proof.
  intros HAS HK.
  rewrite (model_value _ _ _ _ _ _ _ _ _ _ _ _ _ _ _ _ HAS HK).
  unfold spec_derivative.
  do 4 eexists. split; [reflexivity |].
  assert (E : - γ * 0 + antibiotic_input t == antibiotic_input t) by ring.
  split; [exact E |]. rewrite E. split.
  - destruct (antibiotic_input_cases t) as [-> | ->]; discriminate.
  - intros Hout. now rewrite (antibiotic_input_outside t Hout).
Qed.

Lemma model_antibiotic_free_witness :
  exists dCa dS dA dP,
    model 50 [0; 3; 1; 5] 1 1 1 2 10 (1 # 7) (1 # 9) 1 1 1 1
      = Ok [dCa; dS; dA; dP] /\
    dCa == antibiotic_input 50 /\ 0 <= dCa /\
    (50 < 100 \/ 101 <= 50 -> dCa == 0).
Proof.
  apply (model_antibiotic_free 50 3 1 5 1 1 1 2 10 (1 # 7) (1 # 9) 1 1 1 1);
    discriminate.
Defined.

(** X16.  Without therapy ([Ca = 0], [P = 0]) a bacterial population that
    fills the carrying capacity ([S + A = K]) has no net growth: the second
    and third components cancel, whatever the growth and mutation rates. *)
Theorem model_carrying_capacity (t S A γ e ka rS K mA mS rA i d b : Q) :
  S + A == K -> ~ K == 0 ->
  exists dCa dS dA dP,
    model t [0; S; A; 0] γ e ka rS K mA mS rA i d b = Ok [dCa; dS; dA; dP] /\
    dS + dA == 0.
Proof.
  intros Hfull HK.
  assert (HAS : ~ A + S == 0) by (intros H; apply HK; rewrite <- Hfull; lra).
  rewrite (model_value _ _ _ _ _ _ _ _ _ _ _ _ _ _ _ _ HAS HK).
  unfold spec_derivative.
  do 4 eexists. split; [reflexivity |].
  assert (Hq : (S + A) / K == 1) by (rewrite Hfull; now field).
  rewrite Hq. ring.
Qed.

Lemma model_carrying_capacity_witness :
  exists dCa dS dA dP,
    model 0 [0; 7; 3; 0] 1 1 1 2 10 (1 # 7) (1 # 9) 1 1 1 1
      = Ok [dCa; dS; dA; dP] /\
    dS + dA == 0.
Proof.
  apply (model_carrying_capacity 0 7 3 1 1 1 2 10 (1 # 7) (1 # 9) 1 1 1 1);
    [reflexivity | discriminate].
Defined.

(** ** The time settings *)

(** The grid of a namespace with at least two samples. *)
Lemma t_eval_samples (g : Script.globals) :
  (1 < Script.timesteps g)%Z ->
  exists grid,
    t_eval g = Ok grid /\
    length grid = Z.to_nat (Script.timesteps g) /\
    forall k, (k < Z.to_nat (Script.timesteps g))%nat ->
      nth k grid 0 ==
      inject_Z (Z.of_nat k) *
      (inject_Z (Script.t_end g) / inject_Z (Script.timesteps g - 1)).
Proof.
  intros Hn.
  destruct (linspace_samples 0 (inject_Z (Script.t_end g))
              (Script.timesteps g) Hn) as (grid & Hgrid & Hlen & Hnth).
  exists grid. split; [exact Hgrid |]. split; [exact Hlen |].
  intros k Hk. rewrite (Hnth k Hk).
  assert (Hd : ~ inject_Z (Script.timesteps g - 1) == 0).
  { change 0 with (inject_Z 0). rewrite inject_Z_injective. lia. }
  now field.
Qed.

(** X17.  The samples fall on the whole hours [0, 1, 2, ...] exactly when
    [t_end = timesteps - 1]: [linspace] counts points, not intervals, so
    with [t_end = timesteps] (as in the script, 126 and 126) consecutive
    samples are [t_end / (timesteps - 1)] apart and not one hour. *)
Theorem t_eval_hourly_iff (g : Script.globals) :
  (1 < Script.timesteps g)%Z ->
  exists grid,
    t_eval g = Ok grid /\
    length grid = Z.to_nat (Script.timesteps g) /\
    ((forall k, (k < length grid)%nat ->
        nth k grid 0 == inject_Z (Z.of_nat k)) <->
     Script.t_end g = (Script.timesteps g - 1)%Z).
Proof.
  intros Hn.
  destruct (t_eval_samples g Hn) as (grid & Hgrid & Hlen & Hnth).
  exists grid. split; [exact Hgrid |]. split; [exact Hlen |].
  assert (Hd : ~ inject_Z (Script.timesteps g - 1) == 0).
  { change 0 with (inject_Z 0). rewrite inject_Z_injective. lia. }
  rewrite Hlen. split.
  - intros Hhour.
    assert (H1 : (1 < Z.to_nat (Script.timesteps g))%nat) by lia.
    pose proof (Hhour 1%nat H1) as E. rewrite (Hnth 1%nat H1) in E.
    change (inject_Z (Z.of_nat 1)) with 1 in E.
    apply inject_Z_injective.
    assert (E' : inject_Z (Script.t_end g)
                 == 1 * (inject_Z (Script.t_end g)
                         / inject_Z (Script.timesteps g - 1))
                    * inject_Z (Script.timesteps g - 1)) by now field.
    rewrite E' at 1. rewrite E. ring.
  - intros Hend k Hk. rewrite (Hnth k Hk), Hend. now field.
Qed.

Lemma t_eval_hourly_iff_witness :
  exists grid,
    t_eval (Script.mkGlobals 1 1 1 1 0 1 1 10 1 1 1 1 1 1 1 [0; 1; 1; 1] 4 5)
      = Ok grid /\
    length grid = 5%nat /\
    ((forall k, (k < length grid)%nat ->
        nth k grid 0 == inject_Z (Z.of_nat k)) <->
     4%Z = (5 - 1)%Z).
Proof.
  apply (t_eval_hourly_iff
           (Script.mkGlobals 1 1 1 1 0 1 1 10 1 1 1 1 1 1 1 [0; 1; 1; 1] 4 5)).
  reflexivity.
Defined.

(** X18.  The integrator is called with the time span [[0, timesteps]] and
    the grid that ends at [t_end]; every evaluation time lies inside the
    span exactly when [0 <= t_end <= timesteps].  The two settings are
    independent variables of the script, and the span follows
    [timesteps], not [t_end]. *)
Theorem t_eval_within_t_span_iff (g : Script.globals) :
  (1 < Script.timesteps g)%Z ->
  exists grid,
    t_eval g = Ok grid /\
    (forall solve_ivp,
        result solve_ivp g =
        solve_ivp (rhs g) (t_span g) (Script.y0 g) grid) /\
    (Forall (fun x => fst (t_span g) <= x /\ x <= snd (t_span g)) grid <->
     (0 <= Script.t_end g <= Script.timesteps g)%Z).
Proof.
  intros Hn.
  destruct (t_eval_samples g Hn) as (grid & Hgrid & Hlen & Hnth).
  exists grid. split; [exact Hgrid |].
  split; [intros solve_ivp; unfold result; now rewrite Hgrid |].
  set (n := Script.timesteps g) in *. set (T := Script.t_end g) in *.
  assert (Hpos : 0 < inject_Z (n - 1)).
  { change 0 with (inject_Z 0). rewrite <- Zlt_Qlt. lia. }
  assert (Hd : ~ inject_Z (n - 1) == 0) by lra.
  assert (Hstep : inject_Z T / inject_Z (n - 1) * inject_Z (n - 1)
                  == inject_Z T) by now field.
  unfold t_span. cbn [fst snd]. fold n.
  split.
  - intros Hall.
    assert (Hk : (Z.to_nat n - 1 < Z.to_nat n)%nat) by lia.
    rewrite Forall_forall in Hall.
    assert (Hin : In (nth (Z.to_nat n - 1) grid 0) grid)
      by (apply nth_In; lia).
    destruct (Hall _ Hin) as [Hlo Hhi].
    rewrite (Hnth _ Hk) in Hlo, Hhi.
    assert (Ek : inject_Z (Z.of_nat (Z.to_nat n - 1)) == inject_Z (n - 1))
      by (apply inject_Z_injective; lia).
    rewrite Ek in Hlo, Hhi.
    assert (Elast : inject_Z (n - 1) * (inject_Z T / inject_Z (n - 1))
                    == inject_Z T) by now field.
    rewrite Elast in Hlo, Hhi.
    change 0 with (inject_Z 0) in Hlo.
    rewrite <- Zle_Qle in Hlo, Hhi. lia.
  - intros [HT0 HTn].
    apply Forall_forall. intros x Hx.
    destruct (In_nth _ _ 0 Hx) as (k & Hk & <-).
    rewrite Hlen in Hk. rewrite (Hnth k Hk).
    assert (Hk0 : 0 <= inject_Z (Z.of_nat k)).
    { change 0 with (inject_Z 0). rewrite <- Zle_Qle. lia. }
    assert (Hk1 : inject_Z (Z.of_nat k) <= inject_Z (n - 1))
      by (rewrite <- Zle_Qle; lia).
    assert (HT0' : 0 <= inject_Z T).
    { change 0 with (inject_Z 0). now rewrite <- Zle_Qle. }
    assert (HTn' : inject_Z T <= inject_Z n) by now rewrite <- Zle_Qle.
    assert (Hs : 0 <= inject_Z T / inject_Z (n - 1)).
    { apply Qle_shift_div_l; [exact Hpos | lra]. }
    set (s := inject_Z T / inject_Z (n - 1)) in *.
    split; [nra |].
    apply Qle_trans with (inject_Z T); [| exact HTn'].
    rewrite <- Hstep.
    rewrite (Qmult_comm s). apply Qmult_le_compat_r; assumption.
Qed.

Lemma t_eval_within_t_span_iff_witness :
  exists grid,
    t_eval (Script.mkGlobals 1 1 1 1 0 1 1 10 1 1 1 1 1 1 1 [0; 1; 1; 1] 8 5)
      = Ok grid /\
    (forall solve_ivp,
        result solve_ivp
          (Script.mkGlobals 1 1 1 1 0 1 1 10 1 1 1 1 1 1 1 [0; 1; 1; 1] 8 5) =
        solve_ivp
          (rhs (Script.mkGlobals 1 1 1 1 0 1 1 10 1 1 1 1 1 1 1 [0; 1; 1; 1] 8 5))
          (0, 5) [0; 1; 1; 1] grid) /\
    (Forall (fun x => 0 <= x /\ x <= 5) grid <-> (0 <= 8 <= 5)%Z).
Proof.
  apply (t_eval_within_t_span_iff
           (Script.mkGlobals 1 1 1 1 0 1 1 10 1 1 1 1 1 1 1 [0; 1; 1; 1] 8 5)).
  reflexivity.
Defined.
